(** * Replication policy validation (src/replication/ng/model/policy.go)

    A shallow embedding of [Policy.Valid] and of the data it reads.  The Go
    method walks a [*Policy] and reports every violation through
    [v.SetError]; here it is a computation in a small state-and-panic monad
    over a memory that holds both the policy and the validation sink, so
    that what the method reads, what it writes and where it can panic are
    all visible in the model. *)

From Stdlib Require Import ZArith String List Bool Lia.
Import ListNotations.

Local Open Scope string_scope.
Local Open Scope list_scope.

(** ** The validation sink *)

(** One reported violation: the field name(s) and the message. *)
Record Error := mkError { Field : string; Message : string }.

(** The accumulator handed to [Valid] by its caller. *)
Record Validation := mkValidation { Errors : list Error }.

(** Modelled from the spec: [validation.Validation.SetError] belongs to the
    beego validation package, which is imported by policy.go and is not part
    of this repository.  The spec describes it as an error accumulator,
    [report(field, message)], whose content is returned to the caller in
    the order of the reports: one (field, message) entry is appended. *)
Definition Validation_SetError (fieldName errMsg : string) (v : Validation)
  : Validation :=
  mkValidation (Errors v ++ [mkError fieldName errMsg]).

(** ** Package constants *)

Definition FilterTypeResource : string := "resource".
Definition FilterTypeName : string := "name".
Definition FilterTypeTag : string := "tag".
Definition FilterTypeLabel : string := "label".

Definition TriggerTypeManual : string := "manual".
Definition TriggerTypeScheduled : string := "scheduled".
Definition TriggerTypeEventBased : string := "event_based".

(** ** Data model *)

(** [type FilterType string] and [type TriggerType string]. *)
Definition FilterType := string.
Definition TriggerType := string.

(** A value of the empty interface, as JSON decoding produces it. *)
#[warnings="-register-all"]
Inductive Any : Type :=
| AnyNil
| AnyBool (b : bool)
| AnyNumber (n : Z)
| AnyString (s : string)
| AnyList (l : list Any).

(** [time.Time], opaque to the validator. *)
Record Time := mkTime { unixNano : Z }.

(** [Type] is reserved in Rocq, so the two [Type] fields carry the name of
    their struct. *)
Record Filter := mkFilter {
  Filter_Type : FilterType;
  Filter_Value : Any
}.

Record TriggerSettings := mkTriggerSettings { Cron : string }.

(** [Settings *TriggerSettings]: [None] is the nil pointer. *)
Record Trigger := mkTrigger {
  Trigger_Type : TriggerType;
  Trigger_Settings : option TriggerSettings
}.

(** The [int64] fields are only ever compared with 0, so they are integers
    without any arithmetic.  [Filters []*Filter] is a slice of pointers, each
    of which may be nil; [Trigger *Trigger] may be nil. *)
Record Policy := mkPolicy {
  ID : Z;
  Name : string;
  Description : string;
  Creator : string;
  SrcRegistryID : Z;
  SrcNamespaces : list string;
  DestRegistryID : Z;
  DestNamespace : string;
  Filters : list (option Filter);
  Trigger_ : option Trigger;
  Deletion : bool;
  Override : bool;
  Enabled : bool;
  CreationTime : Time;
  UpdateTime : Time
}.

(** ** Memory, results and the monad *)

(** What the two pointer arguments of [Valid] point to. *)
Record Mem := mkMem { mem_p : Policy; mem_v : Validation }.

(** A call either returns, or panics (nil pointer dereference); in both
    cases the memory it leaves behind is observable by the caller. *)
Inductive Result (A : Type) : Type :=
| Returns (a : A) (m : Mem)
| Panics (m : Mem).

Arguments Returns {A} a m.
Arguments Panics {A} m.

Definition Go (A : Type) : Type := Mem -> Result A.

Definition ret {A : Type} (a : A) : Go A := fun m => Returns a m.

Definition bind {A B : Type} (c : Go A) (k : A -> Go B) : Go B :=
  fun m =>
    match c m with
    | Returns a m' => k a m'
    | Panics m' => Panics m'
    end.

Declare Scope go_scope.
Delimit Scope go_scope with go.
Notation "x <- c ;; k" := (bind c (fun x => k))
  (at level 61, c at next level, right associativity) : go_scope.
Notation "c ;; k" := (bind c (fun _ => k))
  (at level 61, right associativity) : go_scope.
Local Open Scope go_scope.

(** [p.F]: read a field through the receiver. *)
Definition load {A : Type} (f : Policy -> A) : Go A :=
  fun m => Returns (f (mem_p m)) m.

(** Selecting a field through a pointer that may be nil. *)
Definition deref {A : Type} (ptr : option A) : Go A :=
  fun m =>
    match ptr with
    | Some a => Returns a m
    | None => Panics m
    end.

(** [v.SetError(field, msg)]: the only write. *)
Definition SetError (fieldName errMsg : string) : Go unit :=
  fun m =>
    Returns tt (mkMem (mem_p m) (Validation_SetError fieldName errMsg (mem_v m))).

(** [if b { c }]. *)
Definition when (b : bool) (c : Go unit) : Go unit :=
  if b then c else ret tt.

Definition final {A : Type} (r : Result A) : Mem :=
  match r with
  | Returns _ m => m
  | Panics m => m
  end.

Definition panicked {A : Type} (r : Result A) : bool :=
  match r with
  | Returns _ _ => false
  | Panics _ => true
  end.

(** ** Go operators on the types involved *)

Definition len (s : string) : nat := String.length s.
Definition str_eq (a b : string) : bool := String.eqb a b.
Definition str_ne (a b : string) : bool := negb (String.eqb a b).
Definition int_eq (a b : Z) : bool := Z.eqb a b.
Definition int_ne (a b : Z) : bool := negb (Z.eqb a b).

(** [fmt.Sprintf] with a format that ends in its single [%s] verb. *)
Definition Sprintf_s (prefix arg : string) : string := prefix ++ arg.

(** ** Policy.Valid *)

(** Lines 87-92: the scan of the source namespaces, with its [break]. *)
Fixpoint range_namespaces (namespaces : list string) : Go unit :=
  match namespaces with
  | [] => ret tt
  | namespace :: rest =>
      if Nat.eqb (len namespace) 0
      then SetError "src_namespaces" "cannot contain empty namespace"
      else range_namespaces rest
  end.

(** Lines 96-104: the scan of the filters, with its [break].  [filter.Type]
    dereferences the element, whatever it is. *)
Fixpoint range_filters (filters : list (option Filter)) : Go unit :=
  match filters with
  | [] => ret tt
  | ptr :: rest =>
      filter <- deref ptr ;;
      if str_ne (Filter_Type filter) FilterTypeResource &&
         str_ne (Filter_Type filter) FilterTypeName &&
         str_ne (Filter_Type filter) FilterTypeTag &&
         str_ne (Filter_Type filter) FilterTypeLabel
      then SetError "filters" "invalid filter type"
      else range_filters rest
  end.

Definition Valid : Go unit :=
  name <- load Name ;;
  when (Nat.eqb (len name) 0)
    (SetError "name" "cannot be empty") ;;
  src <- load SrcRegistryID ;;
  dest <- load DestRegistryID ;;
  when (int_ne src 0 && int_ne dest 0 || int_eq src 0 && int_eq dest 0)
    (SetError "src_registry_id, dest_registry_id"
       "one of them should be empty and the other one shouldn't be empty") ;;
  namespaces <- load SrcNamespaces ;;
  (if Nat.eqb (List.length namespaces) 0
   then SetError "src_namespaces" "cannot be empty"
   else range_namespaces namespaces) ;;
  filters <- load Filters ;;
  range_filters filters ;;
  trigger <- load Trigger_ ;;
  match trigger with
  | None => ret tt
  | Some t =>
      when (str_ne (Trigger_Type t) TriggerTypeManual &&
            str_ne (Trigger_Type t) TriggerTypeScheduled &&
            str_ne (Trigger_Type t) TriggerTypeEventBased)
        (SetError "trigger" "invalid trigger type") ;;
      when (str_eq (Trigger_Type t) TriggerTypeScheduled &&
            match Trigger_Settings t with
            | None => true
            | Some settings => Nat.eqb (len (Cron settings)) 0
            end)
        (SetError "trigger"
           (Sprintf_s "the cron string cannot be empty when the trigger type is "
              TriggerTypeScheduled))
  end.

(** ** Observations of a call *)

(** The call [p.Valid(v)]. *)
Definition call_Valid (p : Policy) (v : Validation) : Result unit :=
  Valid (mkMem p v).

(** The errors reported by the call: what the sink holds afterwards, beyond
    what it held before. *)
Definition reported (p : Policy) (v : Validation) : list Error :=
  skipn (List.length (Errors v)) (Errors (mem_v (final (call_Valid p v)))).

(** The reported errors that carry a given field name. *)
Definition errors_on (field : string) (es : list Error) : list Error :=
  filter (fun e => String.eqb (Field e) field) es.

(** ** The checks, one by one

    What each block of [Valid] appends to the sink, as a function of the
    policy.  These are proof devices: [Valid_run] below shows that the
    monadic code computes exactly them. *)

Definition name_check (p : Policy) : list Error :=
  if Nat.eqb (len (Name p)) 0 then [mkError "name" "cannot be empty"] else [].

Definition registry_check (p : Policy) : list Error :=
  if int_ne (SrcRegistryID p) 0 && int_ne (DestRegistryID p) 0
     || int_eq (SrcRegistryID p) 0 && int_eq (DestRegistryID p) 0
  then [mkError "src_registry_id, dest_registry_id"
          "one of them should be empty and the other one shouldn't be empty"]
  else [].

Fixpoint namespace_scan (l : list string) : list Error :=
  match l with
  | [] => []
  | namespace :: rest =>
      if Nat.eqb (len namespace) 0
      then [mkError "src_namespaces" "cannot contain empty namespace"]
      else namespace_scan rest
  end.

Definition namespaces_check (p : Policy) : list Error :=
  if Nat.eqb (List.length (SrcNamespaces p)) 0
  then [mkError "src_namespaces" "cannot be empty"]
  else namespace_scan (SrcNamespaces p).

Definition known_filter_type (t : FilterType) : bool :=
  negb (str_ne t FilterTypeResource && str_ne t FilterTypeName &&
        str_ne t FilterTypeTag && str_ne t FilterTypeLabel).

Fixpoint filter_scan (l : list (option Filter)) : list Error :=
  match l with
  | [] => []
  | None :: _ => []
  | Some f :: rest =>
      if known_filter_type (Filter_Type f) then filter_scan rest
      else [mkError "filters" "invalid filter type"]
  end.

(** Whether the scan of the filters meets a nil entry before it breaks. *)
Fixpoint filter_nil (l : list (option Filter)) : bool :=
  match l with
  | [] => false
  | None :: _ => true
  | Some f :: rest =>
      if known_filter_type (Filter_Type f) then filter_nil rest else false
  end.

Definition known_trigger_type (t : TriggerType) : bool :=
  negb (str_ne t TriggerTypeManual && str_ne t TriggerTypeScheduled &&
        str_ne t TriggerTypeEventBased).

Definition cron_missing (t : Trigger) : bool :=
  match Trigger_Settings t with
  | None => true
  | Some settings => Nat.eqb (len (Cron settings)) 0
  end.

Definition invalid_trigger_type : Error :=
  mkError "trigger" "invalid trigger type".

Definition cron_required : Error :=
  mkError "trigger"
    "the cron string cannot be empty when the trigger type is scheduled".

Definition trigger_check (p : Policy) : list Error :=
  match Trigger_ p with
  | None => []
  | Some t =>
      (if known_trigger_type (Trigger_Type t) then [] else [invalid_trigger_type])
      ++ (if str_eq (Trigger_Type t) TriggerTypeScheduled && cron_missing t
          then [cron_required] else [])
  end.

Definition before_trigger (p : Policy) : list Error :=
  name_check p ++ registry_check p ++ namespaces_check p
  ++ filter_scan (Filters p).

Definition checks (p : Policy) : list Error :=
  before_trigger p ++ (if filter_nil (Filters p) then [] else trigger_check p).

(** Appending a batch of errors to the sink of a memory. *)
Definition report (es : list Error) (m : Mem) : Mem :=
  mkMem (mem_p m) (mkValidation (Errors (mem_v m) ++ es)).

(** ** Inputs named in the specification *)

(** The zero [time.Time]. *)
Definition zero_time : Time := mkTime 0.

(** A policy literal that sets only the validated fields; every other field
    has its zero value. *)
Definition policy_lit (name : string) (src : Z) (namespaces : list string)
  (dest : Z) (filters : list (option Filter)) (trigger : option Trigger)
  : Policy :=
  mkPolicy 0 name "" "" src namespaces dest "" filters trigger
    false false false zero_time zero_time.

(** [Policy{Name:"p1", SrcRegistryID:0, DestRegistryID:5,
    SrcNamespaces:["library"], Filters:[], Trigger:nil}]. *)
Definition policy_p1 : Policy := policy_lit "p1" 0 ["library"] 5 [] None.

(** [Policy{Name:"", SrcRegistryID:0, DestRegistryID:0, SrcNamespaces:[]}]. *)
Definition policy_blank : Policy := policy_lit "" 0 [] 0 [] None.

(** [p.SrcNamespaces = l], done by the caller before validation. *)
Definition with_SrcNamespaces (l : list string) (p : Policy) : Policy :=
  mkPolicy (ID p) (Name p) (Description p) (Creator p) (SrcRegistryID p) l
    (DestRegistryID p) (DestNamespace p) (Filters p) (Trigger_ p)
    (Deletion p) (Override p) (Enabled p) (CreationTime p) (UpdateTime p).

Definition name_empty : Error := mkError "name" "cannot be empty".

Definition registry_mismatch : Error :=
  mkError "src_registry_id, dest_registry_id"
    "one of them should be empty and the other one shouldn't be empty".

Definition namespaces_empty : Error :=
  mkError "src_namespaces" "cannot be empty".

Definition namespace_blank : Error :=
  mkError "src_namespaces" "cannot contain empty namespace".

Definition invalid_filter_type : Error :=
  mkError "filters" "invalid filter type".

(** A nil entry ahead of a filter of unknown type, as the JSON body
    [{"filters": [null, {"type": "bogus"}]}] decodes. *)
Definition policy_nil_then_bogus : Policy :=
  policy_lit "p1" 0 ["library"] 5 [None; Some (mkFilter "bogus" AnyNil)] None.

(** A scheduled trigger without settings, behind a nil filter entry. *)
Definition policy_scheduled_nil_filter : Policy :=
  policy_lit "p1" 0 ["library"] 5 [None] (Some (mkTrigger "scheduled" None)).

(** [Trigger{Type: "bogus"}]: unknown type, no settings. *)
Definition policy_bogus_trigger : Policy :=
  policy_lit "p1" 0 ["library"] 5 [] (Some (mkTrigger "bogus" None)).

(** [Policy{..., SrcNamespaces: ["a", "", "b"]}]. *)
Definition policy_blank_namespace : Policy :=
  policy_lit "p1" 0 ["a"; ""; "b"] 5 [] None.

(** The part of a policy that [Valid] reads: the name, the two registry ids,
    the source namespaces, the type of each filter (or its being nil) and,
    of the trigger, its type and its cron string. *)
Definition validated_view (p : Policy) :=
  (Name p, SrcRegistryID p, DestRegistryID p, SrcNamespaces p,
   map (option_map Filter_Type) (Filters p),
   option_map
     (fun t => (Trigger_Type t, option_map Cron (Trigger_Settings t)))
     (Trigger_ p)).

(** Two policies with the same validated view and nothing else in common. *)
Definition policy_push_a : Policy :=
  mkPolicy 1 "nightly" "first" "alice" 0 ["library"] 5 ""
    [Some (mkFilter "name" (AnyString "busybox"))]
    (Some (mkTrigger "scheduled" (Some (mkTriggerSettings ""))))
    false false false (mkTime 0) (mkTime 0).

Definition policy_push_b : Policy :=
  mkPolicy 2 "nightly" "second" "bob" 0 ["library"] 5 "flat"
    [Some (mkFilter "name" (AnyNumber 7))]
    (Some (mkTrigger "scheduled" (Some (mkTriggerSettings ""))))
    true true true (mkTime 10) (mkTime 20).

(** ** Vocabulary for the properties of the whole method *)

(** The field names [Valid] reports on, in the order of its blocks. *)
Definition field_order : list string :=
  ["name"; "src_registry_id, dest_registry_id"; "src_namespaces";
   "filters"; "trigger"].

(** [subseq l ref]: [l] is [ref] with some entries left out. *)
Fixpoint subseq (l ref : list string) : bool :=
  match l, ref with
  | [], _ => true
  | _ :: _, [] => false
  | x :: l', y :: ref' =>
      if String.eqb x y then subseq l' ref' else subseq l ref'
  end.

(** An entry of [Filters] that the scan steps over: a non-nil filter whose
    type is one of the four filter types. *)
Definition passes_scan (ptr : option Filter) : Prop :=
  exists f, ptr = Some f
            /\ In (Filter_Type f)
                 [FilterTypeResource; FilterTypeName;
                  FilterTypeTag; FilterTypeLabel].

(** Two calls in a row on the same policy and the same sink. *)
Definition Valid_twice : Go unit := Valid ;; Valid.

(** The same filters as in [policy_nil_then_bogus], the other way round. *)
Definition policy_bogus_then_nil : Policy :=
  policy_lit "p1" 0 ["library"] 5 [Some (mkFilter "bogus" AnyNil); None] None.

(** * Running the code *)

Section Run.

Lemma report_nil (m : Mem) : report [] m = m.
Proof.
  destruct m as [p [es]]. unfold report. simpl. now rewrite app_nil_r.
Qed.

Lemma report_report (es1 es2 : list Error) (m : Mem) :
  report es2 (report es1 m) = report (es1 ++ es2) m.
Proof.
  unfold report. simpl. now rewrite app_assoc.
Qed.

Lemma SetError_run (f msg : string) (m : Mem) :
  SetError f msg m = Returns tt (report [mkError f msg] m).
Proof. reflexivity. Qed.

Lemma when_run (b : bool) (f msg : string) (m : Mem) :
  when b (SetError f msg) m
  = Returns tt (report (if b then [mkError f msg] else []) m).
Proof.
  destruct b; simpl.
  - reflexivity.
  - now rewrite report_nil.
Qed.

Lemma range_namespaces_run (l : list string) (m : Mem) :
  range_namespaces l m = Returns tt (report (namespace_scan l) m).
Proof.
  induction l as [|namespace rest IH]; simpl.
  - now rewrite report_nil.
  - destruct (Nat.eqb (len namespace) 0); [reflexivity | exact IH].
Qed.

Lemma range_filters_run (l : list (option Filter)) (m : Mem) :
  range_filters l m
  = if filter_nil l then Panics (report (filter_scan l) m)
    else Returns tt (report (filter_scan l) m).
Proof.
  induction l as [|ptr rest IH]; simpl.
  - now rewrite report_nil.
  - destruct ptr as [f|]; unfold bind; simpl.
    + unfold known_filter_type.
      destruct (str_ne (Filter_Type f) FilterTypeResource &&
                str_ne (Filter_Type f) FilterTypeName &&
                str_ne (Filter_Type f) FilterTypeTag &&
                str_ne (Filter_Type f) FilterTypeLabel); simpl.
      * reflexivity.
      * exact IH.
    + now rewrite report_nil.
Qed.

Lemma namespaces_block_run (p : Policy) (m : Mem) :
  (if Nat.eqb (List.length (SrcNamespaces p)) 0
   then SetError "src_namespaces" "cannot be empty"
   else range_namespaces (SrcNamespaces p)) m
  = Returns tt (report (namespaces_check p) m).
Proof.
  unfold namespaces_check.
  destruct (Nat.eqb (List.length (SrcNamespaces p)) 0).
  - reflexivity.
  - apply range_namespaces_run.
Qed.

Lemma mem_p_report (es : list Error) (m : Mem) : mem_p (report es m) = mem_p m.
Proof. reflexivity. Qed.

(** The whole method, in one equation. *)
Lemma Valid_run (p : Policy) (v : Validation) :
  call_Valid p v
  = if filter_nil (Filters p)
    then Panics (mkMem p (mkValidation (Errors v ++ checks p)))
    else Returns tt (mkMem p (mkValidation (Errors v ++ checks p))).
Proof.
  unfold call_Valid, Valid, bind, load. cbn [mem_p].
  rewrite when_run. cbn iota beta.
  rewrite when_run, report_report. cbn iota beta.
  rewrite mem_p_report. cbn [mem_p].
  rewrite namespaces_block_run, report_report. cbn iota beta.
  rewrite mem_p_report. cbn [mem_p].
  rewrite range_filters_run, report_report.
  unfold checks, before_trigger, name_check, registry_check.
  destruct (filter_nil (Filters p)).
  - unfold report. cbn [mem_p mem_v Errors].
    now rewrite app_nil_r, <- !app_assoc.
  - rewrite mem_p_report. cbn [mem_p].
    unfold trigger_check.
    destruct (Trigger_ p) as [t|].
    + rewrite when_run, report_report. cbn iota beta.
      rewrite when_run, report_report.
      unfold report. cbn [mem_p mem_v Errors].
      unfold known_trigger_type, cron_missing, invalid_trigger_type, cron_required.
      destruct (str_ne (Trigger_Type t) TriggerTypeManual &&
                str_ne (Trigger_Type t) TriggerTypeScheduled &&
                str_ne (Trigger_Type t) TriggerTypeEventBased);
        cbn [negb]; now rewrite <- !app_assoc.
    + unfold ret, report. cbn [mem_p mem_v Errors].
      now rewrite app_nil_r, <- !app_assoc.
Qed.

Lemma skipn_length_app {A : Type} (l r : list A) :
  skipn (List.length l) (l ++ r) = r.
Proof. induction l as [|a l IH]; [reflexivity | exact IH]. Qed.

(** What a call reports is a function of the policy alone. *)
Lemma reported_checks (p : Policy) (v : Validation) : reported p v = checks p.
Proof.
  unfold reported. rewrite Valid_run.
  destruct (filter_nil (Filters p)); simpl; apply skipn_length_app.
Qed.

Lemma panicked_filter_nil (p : Policy) (v : Validation) :
  panicked (call_Valid p v) = filter_nil (Filters p).
Proof.
  rewrite Valid_run. now destruct (filter_nil (Filters p)).
Qed.

End Run.

(** * Errors by field *)

Section Fields.

Lemma errors_on_app (f : string) (es1 es2 : list Error) :
  errors_on f (es1 ++ es2) = errors_on f es1 ++ errors_on f es2.
Proof. apply filter_app. Qed.

(** A batch whose entries all carry field [g] is kept whole or dropped
    whole by [errors_on]. *)
Lemma errors_on_uniform (g f : string) (es : list Error) :
  Forall (fun e => Field e = g) es ->
  errors_on f es = if String.eqb g f then es else [].
Proof.
  induction 1 as [|e es He _ IH]; simpl.
  - now destruct (String.eqb g f).
  - rewrite He, IH. now destruct (String.eqb g f).
Qed.

Lemma errors_on_In (f : string) (es : list Error) :
  (exists e, In e es /\ Field e = f) <-> errors_on f es <> [].
Proof.
  unfold errors_on. split.
  - intros [e [Hin Hf]] Hnil.
    assert (Hin' : In e (filter (fun e => String.eqb (Field e) f) es)).
    { apply filter_In. split; [exact Hin|]. now apply String.eqb_eq. }
    rewrite Hnil in Hin'. exact Hin'.
  - intros Hne.
    destruct (filter (fun e => String.eqb (Field e) f) es) as [|e rest] eqn:Hf.
    + now contradiction Hne.
    + assert (Hin : In e (filter (fun e => String.eqb (Field e) f) es))
        by (rewrite Hf; now left).
      apply filter_In in Hin. destruct Hin as [Hin Heq].
      exists e. split; [exact Hin|]. now apply String.eqb_eq.
Qed.

Lemma name_check_field (p : Policy) :
  Forall (fun e => Field e = "name") (name_check p).
Proof.
  unfold name_check. destruct (Nat.eqb (len (Name p)) 0); repeat constructor.
Qed.

Lemma registry_check_field (p : Policy) :
  Forall (fun e => Field e = "src_registry_id, dest_registry_id")
    (registry_check p).
Proof.
  unfold registry_check.
  destruct (int_ne (SrcRegistryID p) 0 && int_ne (DestRegistryID p) 0
            || int_eq (SrcRegistryID p) 0 && int_eq (DestRegistryID p) 0);
    repeat constructor.
Qed.

Lemma namespace_scan_field (l : list string) :
  Forall (fun e => Field e = "src_namespaces") (namespace_scan l).
Proof.
  induction l as [|namespace rest IH]; simpl.
  - constructor.
  - destruct (Nat.eqb (len namespace) 0); [repeat constructor | exact IH].
Qed.

Lemma namespaces_check_field (p : Policy) :
  Forall (fun e => Field e = "src_namespaces") (namespaces_check p).
Proof.
  unfold namespaces_check.
  destruct (Nat.eqb (List.length (SrcNamespaces p)) 0).
  - repeat constructor.
  - apply namespace_scan_field.
Qed.

Lemma filter_scan_field (l : list (option Filter)) :
  Forall (fun e => Field e = "filters") (filter_scan l).
Proof.
  induction l as [|[f|] rest IH]; simpl.
  - constructor.
  - destruct (known_filter_type (Filter_Type f)); [exact IH | repeat constructor].
  - constructor.
Qed.

Lemma trigger_check_field (p : Policy) :
  Forall (fun e => Field e = "trigger") (trigger_check p).
Proof.
  unfold trigger_check. destruct (Trigger_ p) as [t|]; [|constructor].
  destruct (known_trigger_type (Trigger_Type t));
    destruct (str_eq (Trigger_Type t) TriggerTypeScheduled && cron_missing t);
    repeat constructor.
Qed.

Lemma trigger_part_field (p : Policy) :
  Forall (fun e => Field e = "trigger")
    (if filter_nil (Filters p) then [] else trigger_check p).
Proof.
  destruct (filter_nil (Filters p)); [constructor | apply trigger_check_field].
Qed.

(** [errors_on f (checks p)], split along the five blocks of [Valid]. *)
Lemma errors_on_checks (f : string) (p : Policy) :
  errors_on f (checks p)
  = (if String.eqb "name" f then name_check p else [])
    ++ (if String.eqb "src_registry_id, dest_registry_id" f
        then registry_check p else [])
    ++ (if String.eqb "src_namespaces" f then namespaces_check p else [])
    ++ (if String.eqb "filters" f then filter_scan (Filters p) else [])
    ++ (if String.eqb "trigger" f
        then (if filter_nil (Filters p) then [] else trigger_check p)
        else []).
Proof.
  unfold checks, before_trigger. rewrite !errors_on_app.
  rewrite (errors_on_uniform _ f _ (name_check_field p)).
  rewrite (errors_on_uniform _ f _ (registry_check_field p)).
  rewrite (errors_on_uniform _ f _ (namespaces_check_field p)).
  rewrite (errors_on_uniform _ f _ (filter_scan_field (Filters p))).
  rewrite (errors_on_uniform _ f _ (trigger_part_field p)).
  now rewrite <- !app_assoc.
Qed.

Lemma errors_on_registry (p : Policy) (v : Validation) :
  errors_on "src_registry_id, dest_registry_id" (reported p v)
  = registry_check p.
Proof.
  rewrite reported_checks, errors_on_checks. simpl. apply app_nil_r.
Qed.

Lemma errors_on_namespaces (p : Policy) (v : Validation) :
  errors_on "src_namespaces" (reported p v) = namespaces_check p.
Proof.
  rewrite reported_checks, errors_on_checks. simpl. apply app_nil_r.
Qed.

Lemma errors_on_filters (p : Policy) (v : Validation) :
  errors_on "filters" (reported p v) = filter_scan (Filters p).
Proof.
  rewrite reported_checks, errors_on_checks. simpl. apply app_nil_r.
Qed.

Lemma errors_on_trigger (p : Policy) (v : Validation) :
  errors_on "trigger" (reported p v)
  = if filter_nil (Filters p) then [] else trigger_check p.
Proof.
  rewrite reported_checks, errors_on_checks. reflexivity.
Qed.

Lemma len_zero (s : string) : Nat.eqb (len s) 0 = true <-> s = "".
Proof.
  destruct s; simpl; split; intro H; try reflexivity; discriminate.
Qed.

End Fields.

(** * The two end-to-end examples *)

(** C1: for Policy{Name:"p1", SrcRegistryID:0, DestRegistryID:5,
    SrcNamespaces:["library"], Filters:[], Trigger:nil}, [Valid] returns and
    reports zero errors, whatever the sink held before. *)
Theorem Valid_p1_no_errors :
  forall v : Validation,
    call_Valid policy_p1 v = Returns tt (mkMem policy_p1 v)
    /\ reported policy_p1 v = [].
Proof.
  intro v. split.
  - rewrite Valid_run. simpl. rewrite app_nil_r. now destruct v.
  - now rewrite reported_checks.
Qed.

(** C3: for Policy{Name:"", SrcRegistryID:0, DestRegistryID:0,
    SrcNamespaces:[]}, [Valid] returns and reports exactly three errors, in
    this order: [name], [src_registry_id, dest_registry_id],
    [src_namespaces]. *)
Theorem Valid_blank_three_errors :
  forall v : Validation,
    panicked (call_Valid policy_blank v) = false
    /\ reported policy_blank v
       = [name_empty; registry_mismatch; namespaces_empty]
    /\ map Field (reported policy_blank v)
       = ["name"; "src_registry_id, dest_registry_id"; "src_namespaces"].
Proof.
  intro v. rewrite panicked_filter_nil, reported_checks. now repeat split.
Qed.

(** * The registry rule *)

Section Registry.

Local Open Scope Z_scope.

Lemma registry_check_true (p : Policy) :
  (SrcRegistryID p = 0 /\ DestRegistryID p = 0)
  \/ (SrcRegistryID p <> 0 /\ DestRegistryID p <> 0) ->
  registry_check p = [registry_mismatch].
Proof.
  unfold registry_check, int_ne, int_eq. intros H.
  destruct (Z.eqb_spec (SrcRegistryID p) 0), (Z.eqb_spec (DestRegistryID p) 0);
    simpl; try reflexivity; lia.
Qed.

Lemma registry_check_false (p : Policy) :
  (SrcRegistryID p = 0 /\ DestRegistryID p <> 0)
  \/ (SrcRegistryID p <> 0 /\ DestRegistryID p = 0) ->
  registry_check p = [].
Proof.
  unfold registry_check, int_ne, int_eq. intros H.
  destruct (Z.eqb_spec (SrcRegistryID p) 0), (Z.eqb_spec (DestRegistryID p) 0);
    simpl; try reflexivity; lia.
Qed.

(** C2: [Valid] reports an error with field
    [src_registry_id, dest_registry_id] if and only if the two registry ids
    are both zero or both non-zero; when exactly one of them is zero, no
    error with that field is reported. *)
Theorem Valid_registry_rule (p : Policy) (v : Validation) :
  ((exists e, In e (reported p v)
              /\ Field e = "src_registry_id, dest_registry_id"%string)
   <-> (SrcRegistryID p = 0 /\ DestRegistryID p = 0)
       \/ (SrcRegistryID p <> 0 /\ DestRegistryID p <> 0))
  /\ ((SrcRegistryID p = 0 /\ DestRegistryID p <> 0)
      \/ (SrcRegistryID p <> 0 /\ DestRegistryID p = 0) ->
      errors_on "src_registry_id, dest_registry_id" (reported p v) = []).
Proof.
  split.
  - rewrite errors_on_In, errors_on_registry. split.
    + intros Hne.
      destruct (Z.eq_dec (SrcRegistryID p) 0) as [Hs|Hs],
               (Z.eq_dec (DestRegistryID p) 0) as [Hd|Hd];
        try (left; split; assumption); try (right; split; assumption);
        exfalso; apply Hne; apply registry_check_false; [left|right]; now split.
    + intros H. now rewrite (registry_check_true p H).
  - intros H. rewrite errors_on_registry. now apply registry_check_false.
Qed.

Lemma Valid_registry_rule_witness :
  ((SrcRegistryID policy_p1 = 0 /\ DestRegistryID policy_p1 <> 0)
   \/ (SrcRegistryID policy_p1 <> 0 /\ DestRegistryID policy_p1 = 0))
  /\ errors_on "src_registry_id, dest_registry_id"
       (reported policy_p1 (mkValidation [])) = [].
Proof.
  assert (H : (SrcRegistryID policy_p1 = 0 /\ DestRegistryID policy_p1 <> 0)
              \/ (SrcRegistryID policy_p1 <> 0 /\ DestRegistryID policy_p1 = 0)).
  { left. split; [reflexivity | discriminate]. }
  split; [exact H|].
  exact (proj2 (Valid_registry_rule policy_p1 (mkValidation [])) H).
Defined.

End Registry.

(** * Source namespaces *)

Section Namespaces.

Lemma namespace_scan_blank (l : list string) :
  In "" l -> namespace_scan l = [namespace_blank].
Proof.
  induction l as [|namespace rest IH]; simpl; [tauto|].
  intros [Heq|Hin].
  - now subst namespace.
  - destruct (Nat.eqb (len namespace) 0); [reflexivity | now apply IH].
Qed.

Lemma namespaces_check_blank (p : Policy) :
  SrcNamespaces p <> [] -> In "" (SrcNamespaces p) ->
  namespaces_check p = [namespace_blank].
Proof.
  unfold namespaces_check. intros Hne Hin.
  destruct (SrcNamespaces p) as [|namespace rest]; [now contradiction Hne|].
  now apply namespace_scan_blank.
Qed.

(** The scan never looks past the first empty entry. *)
Lemma namespace_scan_stops (pre post1 post2 : list string) :
  namespace_scan (pre ++ "" :: post1) = namespace_scan (pre ++ "" :: post2).
Proof.
  induction pre as [|namespace pre IH]; simpl; [reflexivity|].
  destruct (Nat.eqb (len namespace) 0); [reflexivity | exact IH].
Qed.

(** C4: with empty SrcNamespaces the only [src_namespaces] error is
    "cannot be empty"; with a non-empty SrcNamespaces that contains an empty
    string the only one is "cannot contain empty namespace", once; and the
    scan stops at the first empty entry: whatever follows an empty entry
    can be dropped without changing any reported error. *)
Theorem Valid_src_namespaces (p : Policy) (v : Validation) :
  (SrcNamespaces p = [] ->
   errors_on "src_namespaces" (reported p v) = [namespaces_empty])
  /\ (SrcNamespaces p <> [] -> In "" (SrcNamespaces p) ->
      errors_on "src_namespaces" (reported p v) = [namespace_blank])
  /\ (forall pre post, SrcNamespaces p = pre ++ "" :: post ->
      reported p v = reported (with_SrcNamespaces (pre ++ [""]) p) v).
Proof.
  repeat split.
  - intros Hnil. rewrite errors_on_namespaces. unfold namespaces_check.
    now rewrite Hnil.
  - intros Hne Hin. rewrite errors_on_namespaces.
    now apply namespaces_check_blank.
  - intros pre post Hsplit. rewrite !reported_checks.
    unfold checks, before_trigger, namespaces_check.
    cbn [with_SrcNamespaces SrcNamespaces Filters].
    rewrite Hsplit, (namespace_scan_stops pre post []).
    now destruct pre.
Qed.

Lemma Valid_src_namespaces_witness :
  errors_on "src_namespaces" (reported policy_blank (mkValidation []))
  = [namespaces_empty]
  /\ errors_on "src_namespaces"
       (reported policy_blank_namespace (mkValidation []))
     = [namespace_blank]
  /\ reported policy_blank_namespace (mkValidation [])
     = reported (with_SrcNamespaces (["a"] ++ [""]) policy_blank_namespace)
         (mkValidation []).
Proof.
  split; [|split].
  - apply (proj1 (Valid_src_namespaces policy_blank (mkValidation []))).
    reflexivity.
  - apply (proj1 (proj2
             (Valid_src_namespaces policy_blank_namespace (mkValidation [])))).
    + discriminate.
    + simpl. tauto.
  - apply (proj2 (proj2
             (Valid_src_namespaces policy_blank_namespace (mkValidation [])))
             ["a"] ["b"]).
    reflexivity.
Defined.

End Namespaces.

(** * Filters *)

Section FilterTypes.

Lemma known_filter_type_spec (t : FilterType) :
  known_filter_type t = true
  <-> In t [FilterTypeResource; FilterTypeName; FilterTypeTag; FilterTypeLabel].
Proof.
  unfold known_filter_type, str_ne. simpl.
  destruct (String.eqb_spec t FilterTypeResource) as [E1|N1];
  destruct (String.eqb_spec t FilterTypeName) as [E2|N2];
  destruct (String.eqb_spec t FilterTypeTag) as [E3|N3];
  destruct (String.eqb_spec t FilterTypeLabel) as [E4|N4];
    simpl; split; intro H; try reflexivity; try discriminate H; auto;
    exfalso; intuition congruence.
Qed.

(** The scan reports at most once. *)
Lemma filter_scan_cases (l : list (option Filter)) :
  filter_scan l = [] \/ filter_scan l = [invalid_filter_type].
Proof.
  induction l as [|[f|] rest IH]; simpl; auto.
  destruct (known_filter_type (Filter_Type f)); auto.
Qed.

Lemma filter_scan_all_known (l : list (option Filter)) :
  (forall f, In (Some f) l -> known_filter_type (Filter_Type f) = true) ->
  filter_scan l = [].
Proof.
  induction l as [|[f|] rest IH]; simpl; intros H; try reflexivity.
  rewrite (H f) by now left. apply IH. intros g Hg. apply H. now right.
Qed.

Lemma filter_scan_unknown (l : list (option Filter)) :
  Forall (fun ptr => ptr <> None) l ->
  (exists f, In (Some f) l /\ known_filter_type (Filter_Type f) = false) ->
  filter_scan l = [invalid_filter_type].
Proof.
  induction 1 as [|ptr rest Hptr _ IH]; intros [f [Hin Hf]].
  - destruct Hin.
  - destruct ptr as [g|]; [|now contradiction Hptr]. simpl.
    destruct (known_filter_type (Filter_Type g)) eqn:Hg; [|reflexivity].
    apply IH. exists f. split; [|exact Hf].
    destruct Hin as [Heq|Hin]; [|exact Hin].
    injection Heq as ->. congruence.
Qed.

Lemma filter_nil_false (l : list (option Filter)) :
  Forall (fun ptr => ptr <> None) l -> filter_nil l = false.
Proof.
  induction 1 as [|ptr rest Hptr _ IH]; [reflexivity|].
  destruct ptr as [g|]; [|now contradiction Hptr]. simpl.
  now destruct (known_filter_type (Filter_Type g)).
Qed.

(** What the filter block does when no entry of [Filters] is nil: a filter
    of unknown type gives one [filters] error and the call returns. *)
Lemma Valid_filters_without_nil (p : Policy) (v : Validation) :
  Forall (fun ptr => ptr <> None) (Filters p) ->
  (exists f, In (Some f) (Filters p)
             /\ ~ In (Filter_Type f)
                   [FilterTypeResource; FilterTypeName;
                    FilterTypeTag; FilterTypeLabel]) ->
  panicked (call_Valid p v) = false
  /\ errors_on "filters" (reported p v) = [invalid_filter_type].
Proof.
  intros Hnn [f [Hin Hf]]. split.
  - rewrite panicked_filter_nil. now apply filter_nil_false.
  - rewrite errors_on_filters. apply filter_scan_unknown; [exact Hnn|].
    exists f. split; [exact Hin|].
    destruct (known_filter_type (Filter_Type f)) eqn:Hk; [|reflexivity].
    apply known_filter_type_spec in Hk. contradiction.
Qed.

(** Filters whose types are all known (or no filter at all) give no
    [filters] error, and so does every other policy at most once. *)
Lemma Valid_filters_all_known (p : Policy) (v : Validation) :
  (forall f, In (Some f) (Filters p) ->
             In (Filter_Type f)
               [FilterTypeResource; FilterTypeName;
                FilterTypeTag; FilterTypeLabel]) ->
  errors_on "filters" (reported p v) = [].
Proof.
  intros H. rewrite errors_on_filters. apply filter_scan_all_known.
  intros f Hf. apply known_filter_type_spec. now apply H.
Qed.

Lemma Valid_filters_at_most_once (p : Policy) (v : Validation) :
  errors_on "filters" (reported p v) = []
  \/ errors_on "filters" (reported p v) = [invalid_filter_type].
Proof. rewrite errors_on_filters. apply filter_scan_cases. Qed.

(** C5, at the input where the code departs from it: [Filters] holds a nil
    entry and then a filter of type "bogus".  The scan dereferences the nil
    entry, the call panics, and no [filters] error has been reported. *)
Theorem Valid_nil_filter_entry_panics :
  forall v : Validation,
    In (Some (mkFilter "bogus" AnyNil)) (Filters policy_nil_then_bogus)
    /\ ~ In "bogus" [FilterTypeResource; FilterTypeName;
                     FilterTypeTag; FilterTypeLabel]
    /\ call_Valid policy_nil_then_bogus v
       = Panics (mkMem policy_nil_then_bogus v)
    /\ errors_on "filters" (reported policy_nil_then_bogus v) = [].
Proof.
  intro v. split; [|split; [|split]].
  - simpl. tauto.
  - intro H. apply known_filter_type_spec in H. discriminate H.
  - rewrite Valid_run. simpl. rewrite app_nil_r. now destruct v.
  - now rewrite errors_on_filters.
Qed.

End FilterTypes.

(** * Trigger *)

Section Triggers.

Lemma scheduled_is_known (t : TriggerType) :
  str_eq t TriggerTypeScheduled = true -> known_trigger_type t = true.
Proof.
  unfold known_trigger_type, str_ne, str_eq. intros ->.
  simpl. now rewrite andb_false_r.
Qed.

Lemma known_trigger_type_spec (t : TriggerType) :
  known_trigger_type t = true
  <-> In t [TriggerTypeManual; TriggerTypeScheduled; TriggerTypeEventBased].
Proof.
  unfold known_trigger_type, str_ne. simpl.
  destruct (String.eqb_spec t TriggerTypeManual) as [E1|N1];
  destruct (String.eqb_spec t TriggerTypeScheduled) as [E2|N2];
  destruct (String.eqb_spec t TriggerTypeEventBased) as [E3|N3];
    simpl; split; intro H; try reflexivity; try discriminate H; auto;
    exfalso; intuition congruence.
Qed.

(** The two trigger checks never fire together. *)
Lemma trigger_check_cases (p : Policy) :
  trigger_check p = []
  \/ trigger_check p = [invalid_trigger_type]
  \/ trigger_check p = [cron_required].
Proof.
  unfold trigger_check. destruct (Trigger_ p) as [t|]; [|now left].
  destruct (str_eq (Trigger_Type t) TriggerTypeScheduled) eqn:Hs.
  - rewrite (scheduled_is_known _ Hs). simpl.
    destruct (cron_missing t); auto.
  - simpl. destruct (known_trigger_type (Trigger_Type t)); auto.
Qed.

Lemma errors_on_trigger_cases (p : Policy) (v : Validation) :
  errors_on "trigger" (reported p v) = []
  \/ errors_on "trigger" (reported p v) = [invalid_trigger_type]
  \/ errors_on "trigger" (reported p v) = [cron_required].
Proof.
  rewrite errors_on_trigger.
  destruct (filter_nil (Filters p)); [now left | apply trigger_check_cases].
Qed.

Lemma In_errors_on (e : Error) (es : list Error) :
  In e es -> In e (errors_on (Field e) es).
Proof.
  intros H. apply filter_In. split; [exact H | apply String.eqb_refl].
Qed.

Lemma not_both_trigger_errors (p : Policy) (v : Validation) :
  ~ (In invalid_trigger_type (reported p v) /\ In cron_required (reported p v)).
Proof.
  intros [H1 H2].
  apply In_errors_on in H1. apply In_errors_on in H2.
  cbn [Field invalid_trigger_type cron_required] in H1, H2.
  destruct (errors_on_trigger_cases p v) as [E|[E|E]];
    rewrite E in H1, H2; simpl in H1, H2;
    intuition discriminate.
Qed.

(** What the cron check does when the call gets as far as the trigger. *)
Lemma Valid_scheduled_without_nil (p : Policy) (v : Validation) (t : Trigger) :
  filter_nil (Filters p) = false ->
  Trigger_ p = Some t ->
  Trigger_Type t = TriggerTypeScheduled ->
  errors_on "trigger" (reported p v)
  = match Trigger_Settings t with
    | None => [cron_required]
    | Some settings =>
        if Nat.eqb (len (Cron settings)) 0 then [cron_required] else []
    end.
Proof.
  intros Hnil Ht Hs. rewrite errors_on_trigger, Hnil.
  unfold trigger_check, cron_missing. rewrite Ht, Hs. simpl.
  destruct (Trigger_Settings t) as [settings|]; [|reflexivity].
  now destruct (Nat.eqb (len (Cron settings)) 0).
Qed.

(** A scheduled trigger with a non-empty cron string gives no trigger
    error, in every policy. *)
Lemma Valid_scheduled_with_cron (p : Policy) (v : Validation) (cron : string) :
  Trigger_ p
  = Some (mkTrigger TriggerTypeScheduled (Some (mkTriggerSettings cron))) ->
  cron <> "" ->
  errors_on "trigger" (reported p v) = [].
Proof.
  intros Ht Hc. rewrite errors_on_trigger.
  destruct (filter_nil (Filters p)); [reflexivity|].
  unfold trigger_check, cron_missing. rewrite Ht. simpl.
  destruct (Nat.eqb (len cron) 0) eqn:Hl; [|reflexivity].
  apply len_zero in Hl. contradiction.
Qed.

(** C6, at the input where the code departs from it: the trigger is
    {Type: "scheduled", Settings: nil} and [Filters] holds a nil entry.  The
    call panics in the filter scan, before the trigger is looked at, and no
    [trigger] error has been reported. *)
Theorem Valid_scheduled_behind_nil_filter :
  forall v : Validation,
    Trigger_ policy_scheduled_nil_filter
    = Some (mkTrigger TriggerTypeScheduled None)
    /\ call_Valid policy_scheduled_nil_filter v
       = Panics (mkMem policy_scheduled_nil_filter v)
    /\ errors_on "trigger" (reported policy_scheduled_nil_filter v) = [].
Proof.
  intro v. split; [|split].
  - reflexivity.
  - rewrite Valid_run. simpl. rewrite app_nil_r. now destruct v.
  - now rewrite errors_on_trigger.
Qed.

(** C7 as stated fails: no policy makes [Valid] report both the
    "invalid trigger type" error and the empty-cron error, and the trigger
    {Type: "bogus"} without settings gets the first one only. *)
Lemma Valid_both_trigger_errors_never :
  ~ (exists (p : Policy) (v : Validation),
        In invalid_trigger_type (reported p v)
        /\ In cron_required (reported p v))
  /\ reported policy_bogus_trigger (mkValidation []) = [invalid_trigger_type].
Proof.
  split.
  - intros [p [v H]]. exact (not_both_trigger_errors p v H).
  - reflexivity.
Qed.

(** An error reported on the trigger comes from the trigger block. *)
Lemma In_reported_trigger_check (e : Error) (p : Policy) (v : Validation) :
  Field e = "trigger" -> In e (reported p v) -> In e (trigger_check p).
Proof.
  intros He Hin. apply In_errors_on in Hin.
  rewrite He, errors_on_trigger in Hin.
  destruct (filter_nil (Filters p)); [destruct Hin | exact Hin].
Qed.

Lemma invalid_trigger_type_origin (p : Policy) :
  In invalid_trigger_type (trigger_check p) ->
  exists t, Trigger_ p = Some t
            /\ ~ In (Trigger_Type t)
                  [TriggerTypeManual; TriggerTypeScheduled;
                   TriggerTypeEventBased].
Proof.
  unfold trigger_check. destruct (Trigger_ p) as [t|]; [|intros []].
  intros Hin. exists t. split; [reflexivity|].
  destruct (known_trigger_type (Trigger_Type t)) eqn:Hk.
  - simpl in Hin.
    destruct (str_eq (Trigger_Type t) TriggerTypeScheduled && cron_missing t);
      simpl in Hin; [destruct Hin as [H|[]]; discriminate H | destruct Hin].
  - intros Hty. apply known_trigger_type_spec in Hty. congruence.
Qed.

Lemma cron_required_origin (p : Policy) :
  In cron_required (trigger_check p) ->
  exists t, Trigger_ p = Some t /\ Trigger_Type t = TriggerTypeScheduled.
Proof.
  unfold trigger_check. destruct (Trigger_ p) as [t|]; [|intros []].
  intros Hin. exists t. split; [reflexivity|].
  destruct (str_eq (Trigger_Type t) TriggerTypeScheduled) eqn:Hs.
  - now apply String.eqb_eq.
  - simpl in Hin. rewrite app_nil_r in Hin.
    destruct (known_trigger_type (Trigger_Type t)); simpl in Hin;
      [destruct Hin | destruct Hin as [H|[]]; discriminate H].
Qed.

Lemma unknown_trigger_type_check (p : Policy) (t : Trigger) :
  Trigger_ p = Some t ->
  ~ In (Trigger_Type t)
      [TriggerTypeManual; TriggerTypeScheduled; TriggerTypeEventBased] ->
  trigger_check p = [invalid_trigger_type].
Proof.
  intros Ht Hty. unfold trigger_check. rewrite Ht.
  destruct (known_trigger_type (Trigger_Type t)) eqn:Hk.
  - apply known_trigger_type_spec in Hk. contradiction.
  - destruct (str_eq (Trigger_Type t) TriggerTypeScheduled) eqn:Hs;
      [|reflexivity].
    rewrite (scheduled_is_known _ Hs) in Hk. discriminate Hk.
Qed.

(** C7, amended: in every call at most one [trigger] error is reported,
    either "invalid trigger type" or the empty-cron error, never both.
    "invalid trigger type" is reported only for a trigger whose type is
    none of manual, scheduled and event_based, and the empty-cron error
    only for a trigger of type scheduled, which is a known type.  In a call
    that returns, a trigger of unknown type, with or without settings, gets
    "invalid trigger type" and nothing else on the trigger. *)
Theorem Valid_trigger_errors_exclusive (p : Policy) (v : Validation) :
  (List.length (errors_on "trigger" (reported p v)) <= 1)%nat
  /\ (errors_on "trigger" (reported p v) = []
      \/ errors_on "trigger" (reported p v) = [invalid_trigger_type]
      \/ errors_on "trigger" (reported p v) = [cron_required])
  /\ ~ (In invalid_trigger_type (reported p v)
        /\ In cron_required (reported p v))
  /\ (In invalid_trigger_type (reported p v) ->
      exists t, Trigger_ p = Some t
                /\ ~ In (Trigger_Type t)
                      [TriggerTypeManual; TriggerTypeScheduled;
                       TriggerTypeEventBased])
  /\ (In cron_required (reported p v) ->
      exists t, Trigger_ p = Some t
                /\ Trigger_Type t = TriggerTypeScheduled)
  /\ (forall t,
        panicked (call_Valid p v) = false ->
        Trigger_ p = Some t ->
        ~ In (Trigger_Type t)
            [TriggerTypeManual; TriggerTypeScheduled;
             TriggerTypeEventBased] ->
        errors_on "trigger" (reported p v) = [invalid_trigger_type]).
Proof.
  split; [|split; [|split; [|split; [|split]]]].
  - destruct (errors_on_trigger_cases p v) as [E|[E|E]]; rewrite E; simpl; lia.
  - apply errors_on_trigger_cases.
  - apply not_both_trigger_errors.
  - intros Hin. apply invalid_trigger_type_origin.
    now apply (In_reported_trigger_check invalid_trigger_type p v).
  - intros Hin. apply cron_required_origin.
    now apply (In_reported_trigger_check cron_required p v).
  - intros t Hp Ht Hty. rewrite panicked_filter_nil in Hp.
    rewrite errors_on_trigger, Hp.
    now apply (unknown_trigger_type_check p t).
Qed.

Lemma Valid_trigger_errors_exclusive_witness :
  panicked (call_Valid policy_bogus_trigger (mkValidation [])) = false
  /\ Trigger_ policy_bogus_trigger = Some (mkTrigger "bogus" None)
  /\ ~ In "bogus"
         [TriggerTypeManual; TriggerTypeScheduled; TriggerTypeEventBased]
  /\ errors_on "trigger" (reported policy_bogus_trigger (mkValidation []))
     = [invalid_trigger_type].
Proof.
  assert (Hty : ~ In "bogus"
                  [TriggerTypeManual; TriggerTypeScheduled;
                   TriggerTypeEventBased]).
  { simpl. intros [H|[H|[H|[]]]]; discriminate H. }
  split; [reflexivity|]. split; [reflexivity|]. split; [exact Hty|].
  apply (proj2 (proj2 (proj2 (proj2 (proj2
           (Valid_trigger_errors_exclusive policy_bogus_trigger
              (mkValidation []))))))
           (mkTrigger "bogus" None)).
  - reflexivity.
  - reflexivity.
  - exact Hty.
Defined.

(** C8: with a nil Trigger no [trigger] error is reported, whatever the
    other fields hold. *)
Theorem Valid_nil_trigger (p : Policy) (v : Validation) :
  Trigger_ p = None -> errors_on "trigger" (reported p v) = [].
Proof.
  intros Ht. rewrite errors_on_trigger. unfold trigger_check. rewrite Ht.
  now destruct (filter_nil (Filters p)).
Qed.

Lemma Valid_nil_trigger_witness :
  Trigger_ policy_blank = None
  /\ errors_on "trigger" (reported policy_blank (mkValidation [])) = [].
Proof.
  split; [reflexivity|].
  apply (Valid_nil_trigger policy_blank (mkValidation [])). reflexivity.
Defined.

End Triggers.

(** * Frame and dependencies *)

Section Frame.

(** C9: the call leaves the policy as it found it, filters, trigger and
    trigger settings included, whether it returns or panics; its only write
    is to the sink, which keeps what it held and gains the reported errors
    at its end. *)
Theorem Valid_frame (p : Policy) (v : Validation) :
  mem_p (final (call_Valid p v)) = p
  /\ Errors (mem_v (final (call_Valid p v))) = Errors v ++ reported p v.
Proof.
  rewrite reported_checks, Valid_run.
  now destruct (filter_nil (Filters p)).
Qed.

Lemma filter_scan_types (l1 l2 : list (option Filter)) :
  map (option_map Filter_Type) l1 = map (option_map Filter_Type) l2 ->
  filter_scan l1 = filter_scan l2 /\ filter_nil l1 = filter_nil l2.
Proof.
  revert l2. induction l1 as [|ptr1 l1 IH]; intros [|ptr2 l2] H;
    try discriminate H; [now split|].
  simpl in H. injection H as Hhd Htl.
  destruct ptr1 as [f1|], ptr2 as [f2|]; try discriminate Hhd; [|now split].
  simpl in Hhd. injection Hhd as Hty. simpl. rewrite Hty.
  destruct (known_filter_type (Filter_Type f2)); [now apply IH | now split].
Qed.

Lemma trigger_check_view (p1 p2 : Policy) :
  option_map
    (fun t => (Trigger_Type t, option_map Cron (Trigger_Settings t)))
    (Trigger_ p1)
  = option_map
      (fun t => (Trigger_Type t, option_map Cron (Trigger_Settings t)))
      (Trigger_ p2) ->
  trigger_check p1 = trigger_check p2.
Proof.
  unfold trigger_check, cron_missing.
  destruct (Trigger_ p1) as [t1|], (Trigger_ p2) as [t2|]; simpl; intros H;
    try discriminate H; [|reflexivity].
  injection H as Hty Hcron. rewrite Hty.
  destruct (Trigger_Settings t1) as [s1|], (Trigger_Settings t2) as [s2|];
    simpl in Hcron; try discriminate Hcron; [|reflexivity].
  injection Hcron as ->. reflexivity.
Qed.

(** C10: two policies that agree on the name, the registry ids, the source
    namespaces, the filter types and the trigger's type and cron string get
    the same error list, and the same outcome, however they differ in ID,
    Description, Creator, DestNamespace, filter values, Deletion, Override,
    Enabled, CreationTime and UpdateTime. *)
Theorem Valid_reads_validated_view (p1 p2 : Policy) (v : Validation) :
  validated_view p1 = validated_view p2 ->
  reported p1 v = reported p2 v
  /\ panicked (call_Valid p1 v) = panicked (call_Valid p2 v).
Proof.
  unfold validated_view. intros H.
  injection H as Hname Hsrc Hdest Hns Hfilters Htrigger.
  destruct (filter_scan_types _ _ Hfilters) as [Hscan Hnil].
  rewrite !panicked_filter_nil, !reported_checks.
  split; [|exact Hnil].
  unfold checks, before_trigger, name_check, registry_check, namespaces_check.
  now rewrite Hname, Hsrc, Hdest, Hns, Hscan, Hnil,
    (trigger_check_view p1 p2 Htrigger).
Qed.

Lemma Valid_reads_validated_view_witness :
  validated_view policy_push_a = validated_view policy_push_b
  /\ DestNamespace policy_push_a <> DestNamespace policy_push_b
  /\ reported policy_push_a (mkValidation [])
     = reported policy_push_b (mkValidation [])
  /\ panicked (call_Valid policy_push_a (mkValidation []))
     = panicked (call_Valid policy_push_b (mkValidation [])).
Proof.
  split; [reflexivity|]. split; [discriminate|].
  apply (Valid_reads_validated_view policy_push_a policy_push_b
           (mkValidation [])).
  reflexivity.
Defined.

End Frame.

(** * The blocks of [Valid], each characterised by its input *)

Section Blocks.

Lemma name_check_nil (p : Policy) : name_check p = [] <-> Name p <> "".
Proof.
  unfold name_check.
  destruct (Nat.eqb (len (Name p)) 0) eqn:Hl; split; intros H.
  - discriminate H.
  - apply len_zero in Hl. contradiction.
  - intros Hn. apply (proj2 (len_zero (Name p))) in Hn. congruence.
  - reflexivity.
Qed.

Lemma registry_check_nil (p : Policy) :
  registry_check p = []
  <-> (SrcRegistryID p = 0 /\ DestRegistryID p <> 0)%Z
      \/ (SrcRegistryID p <> 0 /\ DestRegistryID p = 0)%Z.
Proof.
  split; [|apply registry_check_false].
  intros H.
  destruct (Z.eq_dec (SrcRegistryID p) 0) as [Hs|Hs],
           (Z.eq_dec (DestRegistryID p) 0) as [Hd|Hd]; auto;
    rewrite registry_check_true in H by auto; discriminate H.
Qed.

Lemma namespace_scan_nil (l : list string) :
  namespace_scan l = [] <-> ~ In "" l.
Proof.
  induction l as [|namespace rest IH]; simpl.
  - tauto.
  - destruct (Nat.eqb (len namespace) 0) eqn:Hl.
    + apply len_zero in Hl. subst namespace. split; [discriminate | tauto].
    + rewrite IH. split.
      * intros Hrest [Heq|Hin]; [|tauto].
        apply (proj2 (len_zero namespace)) in Heq. congruence.
      * tauto.
Qed.

Lemma namespaces_check_nil (p : Policy) :
  namespaces_check p = []
  <-> SrcNamespaces p <> [] /\ ~ In "" (SrcNamespaces p).
Proof.
  unfold namespaces_check.
  destruct (SrcNamespaces p) as [|namespace rest] eqn:Hns.
  - simpl. split; [discriminate | intros [H _]; now contradiction H].
  - cbn [List.length Nat.eqb]. rewrite namespace_scan_nil.
    split; [intros H; split; [discriminate | exact H] | tauto].
Qed.

Lemma passes_scan_known (ptr : option Filter) :
  passes_scan ptr
  <-> exists f, ptr = Some f /\ known_filter_type (Filter_Type f) = true.
Proof.
  unfold passes_scan. split; intros [f [Hp Hf]]; exists f; split; trivial;
    now apply known_filter_type_spec.
Qed.

Lemma filter_nil_iff (l : list (option Filter)) :
  filter_nil l = true
  <-> exists pre post, l = pre ++ None :: post /\ Forall passes_scan pre.
Proof.
  split.
  - induction l as [|[f|] rest IH]; simpl; intros H.
    + discriminate H.
    + destruct (known_filter_type (Filter_Type f)) eqn:Hk; [|discriminate H].
      destruct (IH H) as [pre [post [Hl Hpre]]].
      exists (Some f :: pre), post. split; [now rewrite Hl|].
      constructor; [|exact Hpre]. apply passes_scan_known. now exists f.
    + exists [], rest. split; [reflexivity | constructor].
  - intros [pre [post [Hl Hpre]]]. subst l.
    induction Hpre as [|ptr pre Hptr _ IH]; [reflexivity|].
    apply passes_scan_known in Hptr. destruct Hptr as [f [-> Hk]].
    simpl. now rewrite Hk.
Qed.

Lemma filter_scan_iff (l : list (option Filter)) :
  filter_scan l = [invalid_filter_type]
  <-> exists pre f post,
        l = pre ++ Some f :: post
        /\ Forall passes_scan pre
        /\ ~ In (Filter_Type f)
               [FilterTypeResource; FilterTypeName;
                FilterTypeTag; FilterTypeLabel].
Proof.
  split.
  - induction l as [|[f|] rest IH]; simpl; intros H; try discriminate H.
    destruct (known_filter_type (Filter_Type f)) eqn:Hk.
    + destruct (IH H) as [pre [g [post [Hl [Hpre Hg]]]]].
      exists (Some f :: pre), g, post. split; [now rewrite Hl|].
      split; [|exact Hg].
      constructor; [|exact Hpre]. apply passes_scan_known. now exists f.
    + exists [], f, rest. split; [reflexivity|]. split; [constructor|].
      intros Hin. apply known_filter_type_spec in Hin. congruence.
  - intros [pre [f [post [Hl [Hpre Hf]]]]]. subst l.
    induction Hpre as [|ptr pre Hptr _ IH]; simpl.
    + destruct (known_filter_type (Filter_Type f)) eqn:Hk; [|reflexivity].
      apply known_filter_type_spec in Hk. contradiction.
    + apply passes_scan_known in Hptr. destruct Hptr as [g [-> Hk]].
      now rewrite Hk.
Qed.

Lemma filter_clean_iff (l : list (option Filter)) :
  filter_scan l = [] /\ filter_nil l = false <-> Forall passes_scan l.
Proof.
  split.
  - induction l as [|[f|] rest IH]; simpl; intros [Hs Hn].
    + constructor.
    + destruct (known_filter_type (Filter_Type f)) eqn:Hk; [|discriminate Hs].
      constructor; [|now apply IH]. apply passes_scan_known. now exists f.
    + discriminate Hn.
  - induction 1 as [|ptr rest Hptr _ IH]; [now split|].
    apply passes_scan_known in Hptr. destruct Hptr as [f [-> Hk]].
    simpl. now rewrite Hk.
Qed.

Lemma cron_missing_spec (t : Trigger) :
  cron_missing t = true
  <-> Trigger_Settings t = None
      \/ exists settings, Trigger_Settings t = Some settings
                          /\ Cron settings = "".
Proof.
  unfold cron_missing. destruct (Trigger_Settings t) as [settings|].
  - rewrite len_zero. split.
    + intros H. right. now exists settings.
    + intros [H|[s [Hs Hc]]]; [discriminate H|]. now injection Hs as ->.
  - split; [now left | reflexivity].
Qed.

End Blocks.

(** * Name and source namespaces, in full *)

Section NameAndNamespaces.

Lemma errors_on_name (p : Policy) (v : Validation) :
  errors_on "name" (reported p v) = name_check p.
Proof.
  rewrite reported_checks, errors_on_checks. simpl. apply app_nil_r.
Qed.

(** X1: an empty Name gives exactly one [name] error, "cannot be empty",
    and only an empty Name does; any other name, whatever its characters,
    gives none. *)
Theorem Valid_name_rule (p : Policy) (v : Validation) :
  (errors_on "name" (reported p v) = [name_empty] <-> Name p = "")
  /\ (errors_on "name" (reported p v) = [] <-> Name p <> "").
Proof.
  rewrite errors_on_name. split; [|apply name_check_nil].
  unfold name_check.
  destruct (Nat.eqb (len (Name p)) 0) eqn:Hl; split; intros H.
  - now apply len_zero.
  - reflexivity.
  - discriminate H.
  - apply (proj2 (len_zero (Name p))) in H. congruence.
Qed.

(** X2: no [src_namespaces] error is reported if and only if SrcNamespaces
    is non-empty and none of its entries is the empty string. *)
Theorem Valid_src_namespaces_accepted (p : Policy) (v : Validation) :
  errors_on "src_namespaces" (reported p v) = []
  <-> SrcNamespaces p <> [] /\ ~ In "" (SrcNamespaces p).
Proof.
  rewrite errors_on_namespaces. apply namespaces_check_nil.
Qed.

End NameAndNamespaces.

(** * Panics *)

Section Panic.

Lemma filter_nil_scan (l : list (option Filter)) :
  filter_nil l = true -> filter_scan l = [].
Proof.
  induction l as [|[f|] rest IH]; simpl; intros H; try reflexivity.
  destruct (known_filter_type (Filter_Type f)); [now apply IH | discriminate H].
Qed.

(** X3: the call panics if and only if [Filters] has a nil entry that the
    scan reaches, that is, one before which every entry is a non-nil filter
    of a known type. *)
Theorem Valid_panics_iff (p : Policy) (v : Validation) :
  panicked (call_Valid p v) = true
  <-> exists pre post,
        Filters p = pre ++ None :: post /\ Forall passes_scan pre.
Proof.
  rewrite panicked_filter_nil. apply filter_nil_iff.
Qed.

(** X4: a call that panics has reported neither a [filters] nor a
    [trigger] error: everything in the sink comes from the name, registry
    and namespace checks, which ran before the scan of the filters. *)
Theorem Valid_panic_reports_early_checks_only (p : Policy) (v : Validation) :
  panicked (call_Valid p v) = true ->
  errors_on "filters" (reported p v) = []
  /\ errors_on "trigger" (reported p v) = []
  /\ forall e, In e (reported p v) ->
       In (Field e)
         ["name"; "src_registry_id, dest_registry_id"; "src_namespaces"].
Proof.
  rewrite panicked_filter_nil. intros Hnil.
  rewrite errors_on_filters, errors_on_trigger, reported_checks, Hnil.
  rewrite (filter_nil_scan _ Hnil).
  split; [reflexivity|]. split; [reflexivity|].
  unfold checks, before_trigger.
  rewrite Hnil, (filter_nil_scan _ Hnil), !app_nil_r.
  intros e He.
  pose proof (name_check_field p) as Hn.
  pose proof (registry_check_field p) as Hr.
  pose proof (namespaces_check_field p) as Hs.
  rewrite Forall_forall in Hn, Hr, Hs.
  apply in_app_or in He. destruct He as [He|He].
  - rewrite (Hn e He). simpl. tauto.
  - apply in_app_or in He. destruct He as [He|He].
    + rewrite (Hr e He). simpl. tauto.
    + rewrite (Hs e He). simpl. tauto.
Qed.

Lemma Valid_panic_reports_early_checks_only_witness :
  panicked (call_Valid policy_scheduled_nil_filter (mkValidation [])) = true
  /\ errors_on "filters"
       (reported policy_scheduled_nil_filter (mkValidation [])) = []
  /\ errors_on "trigger"
       (reported policy_scheduled_nil_filter (mkValidation [])) = []
  /\ forall e,
       In e (reported policy_scheduled_nil_filter (mkValidation [])) ->
       In (Field e)
         ["name"; "src_registry_id, dest_registry_id"; "src_namespaces"].
Proof.
  split; [reflexivity|].
  apply (Valid_panic_reports_early_checks_only
           policy_scheduled_nil_filter (mkValidation [])).
  reflexivity.
Defined.

(** X5: a [filters] error is reported if and only if the first entry of
    [Filters] that is not a non-nil filter of a known type is a filter of
    an unknown type. *)
Theorem Valid_filters_error_iff (p : Policy) (v : Validation) :
  errors_on "filters" (reported p v) = [invalid_filter_type]
  <-> exists pre f post,
        Filters p = pre ++ Some f :: post
        /\ Forall passes_scan pre
        /\ ~ In (Filter_Type f)
               [FilterTypeResource; FilterTypeName;
                FilterTypeTag; FilterTypeLabel].
Proof.
  rewrite errors_on_filters. apply filter_scan_iff.
Qed.

(** X6: the scan breaks at the first filter of unknown type, so nothing
    after it is dereferenced: the call returns with one [filters] error
    even when nil entries follow. *)
Theorem Valid_unknown_filter_shields_rest
  (p : Policy) (v : Validation)
  (pre post : list (option Filter)) (f : Filter) :
  Filters p = pre ++ Some f :: post ->
  Forall passes_scan pre ->
  ~ In (Filter_Type f)
      [FilterTypeResource; FilterTypeName; FilterTypeTag; FilterTypeLabel] ->
  panicked (call_Valid p v) = false
  /\ errors_on "filters" (reported p v) = [invalid_filter_type].
Proof.
  intros Hl Hpre Hf.
  assert (Hscan : filter_scan (Filters p) = [invalid_filter_type]).
  { apply filter_scan_iff. now exists pre, f, post. }
  rewrite panicked_filter_nil, errors_on_filters. split; [|exact Hscan].
  destruct (filter_nil (Filters p)) eqn:Hnil; [|reflexivity].
  rewrite (filter_nil_scan _ Hnil) in Hscan. discriminate Hscan.
Qed.

Lemma Valid_unknown_filter_shields_rest_witness :
  In None (Filters policy_bogus_then_nil)
  /\ panicked (call_Valid policy_bogus_then_nil (mkValidation [])) = false
  /\ errors_on "filters" (reported policy_bogus_then_nil (mkValidation []))
     = [invalid_filter_type].
Proof.
  split; [simpl; tauto|].
  apply (Valid_unknown_filter_shields_rest policy_bogus_then_nil
           (mkValidation []) [] [None] (mkFilter "bogus" AnyNil)).
  - reflexivity.
  - constructor.
  - simpl. intuition discriminate.
Defined.

End Panic.

(** * The trigger checks, in full *)

Section TriggerRules.

Lemma In_errors_on_iff (e : Error) (es : list Error) :
  In e (errors_on (Field e) es) <-> In e es.
Proof.
  unfold errors_on. rewrite filter_In, String.eqb_refl. tauto.
Qed.

Lemma In_reported_trigger (e : Error) (p : Policy) (v : Validation) :
  Field e = "trigger" ->
  panicked (call_Valid p v) = false ->
  In e (reported p v) <-> In e (trigger_check p).
Proof.
  intros He Hp. rewrite panicked_filter_nil in Hp.
  rewrite <- In_errors_on_iff, He, errors_on_trigger, Hp. tauto.
Qed.

(** X7: in a call that returns, "invalid trigger type" is reported if and
    only if the trigger is non-nil and its type is none of manual,
    scheduled and event_based. *)
Theorem Valid_trigger_type_rule (p : Policy) (v : Validation) :
  panicked (call_Valid p v) = false ->
  In invalid_trigger_type (reported p v)
  <-> exists t, Trigger_ p = Some t
                /\ ~ In (Trigger_Type t)
                      [TriggerTypeManual; TriggerTypeScheduled;
                       TriggerTypeEventBased].
Proof.
  intros Hp. rewrite (In_reported_trigger invalid_trigger_type p v eq_refl Hp).
  unfold trigger_check. destruct (Trigger_ p) as [t|].
  - destruct (known_trigger_type (Trigger_Type t)) eqn:Hk.
    + split.
      * simpl.
        destruct (str_eq (Trigger_Type t) TriggerTypeScheduled && cron_missing t);
          simpl; intros H; [destruct H as [H|[]]; discriminate H | destruct H].
      * intros [t' [Ht' Hn]]. injection Ht' as <-.
        apply known_trigger_type_spec in Hk. contradiction.
    + split.
      * intros _. exists t. split; [reflexivity|].
        intros Hin. apply known_trigger_type_spec in Hin. congruence.
      * intros _. simpl. now left.
  - split; [intros [] | intros [t [Ht _]]; discriminate Ht].
Qed.

Lemma Valid_trigger_type_rule_witness :
  panicked (call_Valid policy_bogus_trigger (mkValidation [])) = false
  /\ (In invalid_trigger_type (reported policy_bogus_trigger (mkValidation []))
      <-> exists t, Trigger_ policy_bogus_trigger = Some t
                    /\ ~ In (Trigger_Type t)
                          [TriggerTypeManual; TriggerTypeScheduled;
                           TriggerTypeEventBased]).
Proof.
  split; [reflexivity|].
  apply (Valid_trigger_type_rule policy_bogus_trigger (mkValidation [])).
  reflexivity.
Defined.

(** X8: in a call that returns, the empty-cron error is reported if and
    only if the trigger is non-nil, its type is scheduled, and its settings
    are nil or hold an empty cron string.  So a manual or event_based
    trigger needs no settings, and a non-empty cron string is accepted
    whatever it contains. *)
Theorem Valid_cron_rule (p : Policy) (v : Validation) :
  panicked (call_Valid p v) = false ->
  In cron_required (reported p v)
  <-> exists t, Trigger_ p = Some t
                /\ Trigger_Type t = TriggerTypeScheduled
                /\ (Trigger_Settings t = None
                    \/ exists settings, Trigger_Settings t = Some settings
                                        /\ Cron settings = "").
Proof.
  intros Hp. rewrite (In_reported_trigger cron_required p v eq_refl Hp).
  unfold trigger_check. destruct (Trigger_ p) as [t|].
  - destruct (str_eq (Trigger_Type t) TriggerTypeScheduled) eqn:Hs.
    + rewrite (scheduled_is_known _ Hs). apply String.eqb_eq in Hs. simpl.
      destruct (cron_missing t) eqn:Hc; split.
      * intros _. exists t. repeat split; trivial. now apply cron_missing_spec.
      * intros _. now left.
      * intros [].
      * intros [t' [Ht' [_ Hm]]]. injection Ht' as <-.
        apply cron_missing_spec in Hm. congruence.
    + simpl. rewrite app_nil_r. split.
      * destruct (known_trigger_type (Trigger_Type t)); simpl;
          intros H; [destruct H | destruct H as [H|[]]; discriminate H].
      * intros [t' [Ht' [Hty _]]]. injection Ht' as <-.
        unfold str_eq in Hs. rewrite Hty, String.eqb_refl in Hs.
        discriminate Hs.
  - split; [intros [] | intros [t [Ht _]]; discriminate Ht].
Qed.

Lemma Valid_cron_rule_witness :
  panicked (call_Valid policy_push_a (mkValidation [])) = false
  /\ (In cron_required (reported policy_push_a (mkValidation []))
      <-> exists t, Trigger_ policy_push_a = Some t
                    /\ Trigger_Type t = TriggerTypeScheduled
                    /\ (Trigger_Settings t = None
                        \/ exists settings,
                             Trigger_Settings t = Some settings
                             /\ Cron settings = "")).
Proof.
  split; [reflexivity|].
  apply (Valid_cron_rule policy_push_a (mkValidation [])).
  reflexivity.
Defined.

End TriggerRules.

(** * The error list as a whole *)

Section Whole.

Lemma name_check_cases (p : Policy) :
  name_check p = [] \/ name_check p = [name_empty].
Proof. unfold name_check. destruct (Nat.eqb (len (Name p)) 0); auto. Qed.

Lemma registry_check_cases (p : Policy) :
  registry_check p = [] \/ registry_check p = [registry_mismatch].
Proof.
  unfold registry_check.
  destruct (int_ne (SrcRegistryID p) 0 && int_ne (DestRegistryID p) 0
            || int_eq (SrcRegistryID p) 0 && int_eq (DestRegistryID p) 0);
    auto.
Qed.

Lemma namespace_scan_cases (l : list string) :
  namespace_scan l = [] \/ namespace_scan l = [namespace_blank].
Proof.
  induction l as [|namespace rest IH]; simpl; auto.
  destruct (Nat.eqb (len namespace) 0); auto.
Qed.

Lemma namespaces_check_cases (p : Policy) :
  namespaces_check p = []
  \/ namespaces_check p = [namespaces_empty]
  \/ namespaces_check p = [namespace_blank].
Proof.
  unfold namespaces_check.
  destruct (Nat.eqb (List.length (SrcNamespaces p)) 0); auto.
  destruct (namespace_scan_cases (SrcNamespaces p)); auto.
Qed.

Lemma trigger_part_cases (p : Policy) :
  (if filter_nil (Filters p) then [] else trigger_check p) = []
  \/ (if filter_nil (Filters p) then [] else trigger_check p)
     = [invalid_trigger_type]
  \/ (if filter_nil (Filters p) then [] else trigger_check p)
     = [cron_required].
Proof.
  destruct (filter_nil (Filters p)); [now left | apply trigger_check_cases].
Qed.

(** X9: the fields of the reported errors are [field_order] with some
    entries left out: errors come in the order name, registry ids, source
    namespaces, filters, trigger, no two of them carry the same field, and
    there are at most five. *)
Theorem Valid_error_order (p : Policy) (v : Validation) :
  subseq (map Field (reported p v)) field_order = true
  /\ NoDup (map Field (reported p v))
  /\ List.length (reported p v) <= 5.
Proof.
  rewrite reported_checks. unfold checks, before_trigger.
  destruct (name_check_cases p) as [E1|E1];
  destruct (registry_check_cases p) as [E2|E2];
  destruct (namespaces_check_cases p) as [E3|[E3|E3]];
  destruct (filter_scan_cases (Filters p)) as [E4|E4];
  destruct (trigger_part_cases p) as [E5|[E5|E5]];
    rewrite E1, E2, E3, E4, E5; cbn;
    (split; [reflexivity|]); (split; [|lia]);
    repeat (constructor; [cbn; intuition discriminate|]); constructor.
Qed.

(** X10: what a call reports does not depend on what the sink already
    holds: [Valid] never reads the sink, and an error it has reported
    before is reported again. *)
Theorem Valid_ignores_sink (p : Policy) (v v' : Validation) :
  reported p v = reported p v'
  /\ panicked (call_Valid p v) = panicked (call_Valid p v').
Proof.
  now rewrite !reported_checks, !panicked_filter_nil.
Qed.

(** X11: validating the same policy twice with the same sink leaves the
    policy alone and the sink with every error twice: the first batch, then
    the same batch again. *)
Theorem Valid_twice_duplicates (p : Policy) (v : Validation) :
  panicked (call_Valid p v) = false ->
  Valid_twice (mkMem p v)
  = Returns tt
      (mkMem p (mkValidation (Errors v ++ reported p v ++ reported p v))).
Proof.
  intros Hp. rewrite reported_checks.
  pose proof (Valid_run p v) as H1. unfold call_Valid in H1.
  rewrite panicked_filter_nil in Hp.
  unfold Valid_twice, bind. rewrite H1, Hp.
  pose proof (Valid_run p (mkValidation (Errors v ++ checks p))) as H2.
  unfold call_Valid in H2. rewrite H2, Hp.
  cbn [Errors]. now rewrite <- app_assoc.
Qed.

Lemma Valid_twice_duplicates_witness :
  panicked (call_Valid policy_blank (mkValidation [])) = false
  /\ Valid_twice (mkMem policy_blank (mkValidation []))
     = Returns tt
         (mkMem policy_blank
            (mkValidation
               ([name_empty; registry_mismatch; namespaces_empty]
                ++ [name_empty; registry_mismatch; namespaces_empty]))).
Proof.
  split; [reflexivity|].
  apply (Valid_twice_duplicates policy_blank (mkValidation [])).
  reflexivity.
Defined.

Lemma trigger_check_nil (p : Policy) :
  trigger_check p = []
  <-> forall t, Trigger_ p = Some t ->
        In (Trigger_Type t)
          [TriggerTypeManual; TriggerTypeScheduled; TriggerTypeEventBased]
        /\ (Trigger_Type t = TriggerTypeScheduled ->
            exists settings, Trigger_Settings t = Some settings
                             /\ Cron settings <> "").
Proof.
  unfold trigger_check. destruct (Trigger_ p) as [t|].
  - split.
    + intros H t' Ht'. injection Ht' as <-.
      apply app_eq_nil in H. destruct H as [H1 H2].
      destruct (known_trigger_type (Trigger_Type t)) eqn:Hk; [|discriminate H1].
      split; [now apply known_trigger_type_spec|].
      intros Hs. unfold str_eq in H2. rewrite Hs, String.eqb_refl in H2.
      simpl in H2. unfold cron_missing in H2.
      destruct (Trigger_Settings t) as [settings|]; [|discriminate H2].
      exists settings. split; [reflexivity|]. intros Hc.
      rewrite Hc in H2. discriminate H2.
    + intros H. destruct (H t eq_refl) as [Hk Hs].
      apply known_trigger_type_spec in Hk. rewrite Hk. simpl.
      destruct (str_eq (Trigger_Type t) TriggerTypeScheduled) eqn:He;
        [|reflexivity].
      apply String.eqb_eq in He. destruct (Hs He) as [settings [Hset Hc]].
      unfold cron_missing. rewrite Hset. simpl.
      destruct (Nat.eqb (len (Cron settings)) 0) eqn:Hl; [|reflexivity].
      apply len_zero in Hl. contradiction.
  - split; [intros _ t Ht; discriminate Ht | reflexivity].
Qed.

(** X12: the call returns without reporting anything if and only if the
    name is non-empty, exactly one registry id is zero, SrcNamespaces is
    non-empty without an empty entry, every entry of Filters is a non-nil
    filter of a known type, and the trigger, when there is one, has a known
    type and, if scheduled, settings with a non-empty cron string. *)
Theorem Valid_accepts_iff (p : Policy) (v : Validation) :
  (panicked (call_Valid p v) = false /\ reported p v = [])
  <-> Name p <> ""
      /\ ((SrcRegistryID p = 0 /\ DestRegistryID p <> 0)%Z
          \/ (SrcRegistryID p <> 0 /\ DestRegistryID p = 0)%Z)
      /\ SrcNamespaces p <> [] /\ ~ In "" (SrcNamespaces p)
      /\ Forall passes_scan (Filters p)
      /\ (forall t, Trigger_ p = Some t ->
            In (Trigger_Type t)
              [TriggerTypeManual; TriggerTypeScheduled; TriggerTypeEventBased]
            /\ (Trigger_Type t = TriggerTypeScheduled ->
                exists settings, Trigger_Settings t = Some settings
                                 /\ Cron settings <> "")).
Proof.
  rewrite panicked_filter_nil, reported_checks.
  unfold checks, before_trigger.
  rewrite <- name_check_nil, <- registry_check_nil, <- trigger_check_nil.
  rewrite <- filter_clean_iff.
  assert (Hns := namespaces_check_nil p).
  split.
  - intros [Hnil H]. rewrite Hnil in H.
    apply app_eq_nil in H. destruct H as [H H5].
    apply app_eq_nil in H. destruct H as [H1 H].
    apply app_eq_nil in H. destruct H as [H2 H].
    apply app_eq_nil in H. destruct H as [H3 H4].
    apply Hns in H3. tauto.
  - intros [H1 [H2 [H3 [H3' [[H4 Hnil] H5]]]]].
    split; [exact Hnil|].
    rewrite Hnil, H1, H2, H4, H5, (proj2 Hns (conj H3 H3')). reflexivity.
Qed.

End Whole.
